(** * durationcheck: an analysis pass that reports products of two durations

    A shallow embedding of [durationcheck.go].  The pass visits every
    binary expression of a type-checked package and reports the
    multiplications whose two operands have type [time.Duration] and are
    neither constants nor conversions of a scalar.

    Layout: syntax trees and the tables of the type checker, the two
    effect layers (classifiers that may panic, the pass that also reports
    and logs), the functions of the source in source order, and then the
    properties. *)

From Stdlib Require Import Ascii.
From stdpp Require Import base option strings list gmap.

Set Warnings "-register-all".

Local Open Scope string_scope.
Local Open Scope list_scope.

(** ** Syntax trees ([go/ast]) *)

(** [token.Pos] is an integer offset; a node's address (the key of the
    maps of [types.Info]) is a [NodeId]. *)
Abbreviation Pos := Z (only parsing).
Abbreviation NodeId := positive (only parsing).

(** The operators a [*ast.BinaryExpr] can carry ([go/token]). *)
Inductive Token :=
| ADD | SUB | MUL | QUO | REM
| AND | OR | XOR | SHL | SHR | AND_NOT
| LAND | LOR
| EQL | LSS | GTR | NEQ | LEQ | GEQ.

Global Instance Token_eq_dec : EqDecision Token.
Proof. solve_decision. Defined.

(** [*ast.Ident]. *)
Record IdentT := mkIdent {
  IdentId : NodeId;
  NamePos : Pos;
  Name : string
}.

(** The node kinds the pass tells apart, and one constructor for all the
    others (unary and index expressions, statements, declarations and
    files), which the pass only walks through. *)
Inductive Node :=
| BasicLit (id : NodeId) (ValuePos : Pos) (Value : string)
| Ident (i : IdentT)
| BinaryExpr (id : NodeId) (X : Node) (OpPos : Pos) (Op : Token) (Y : Node)
| CallExpr (id : NodeId) (Fun : Node) (Lparen : Pos) (Args : list Node)
           (Rparen : Pos)
| SelectorExpr (id : NodeId) (X : Node) (Sel : IdentT)
| ParenExpr (id : NodeId) (Lparen : Pos) (X : Node) (Rparen : Pos)
| OtherNode (id : NodeId) (pos : Pos) (children : list Node).

Definition nodeId (n : Node) : NodeId :=
  match n with
  | BasicLit id _ _ => id
  | Ident i => IdentId i
  | BinaryExpr id _ _ _ _ => id
  | CallExpr id _ _ _ _ => id
  | SelectorExpr id _ _ => id
  | ParenExpr id _ _ _ => id
  | OtherNode id _ _ => id
  end.

(** [Node.Pos()]: the position of the first character of the node. *)
Fixpoint NodePos (n : Node) : Pos :=
  match n with
  | BasicLit _ p _ => p
  | Ident i => NamePos i
  | BinaryExpr _ X _ _ _ => NodePos X
  | CallExpr _ f _ _ _ => NodePos f
  | SelectorExpr _ X _ => NodePos X
  | ParenExpr _ lp _ _ => lp
  | OtherNode _ p _ => p
  end.

(** The dynamic type of a node, as a type switch or the inspector's type
    filter sees it. *)
Inductive NodeKind :=
| KBasicLit | KIdent | KBinaryExpr | KCallExpr | KSelectorExpr | KParenExpr
| KOther.

Global Instance NodeKind_eq_dec : EqDecision NodeKind.
Proof. solve_decision. Defined.

Definition kindOf (n : Node) : NodeKind :=
  match n with
  | BasicLit _ _ _ => KBasicLit
  | Ident _ => KIdent
  | BinaryExpr _ _ _ _ _ => KBinaryExpr
  | CallExpr _ _ _ _ _ => KCallExpr
  | SelectorExpr _ _ _ => KSelectorExpr
  | ParenExpr _ _ _ _ => KParenExpr
  | OtherNode _ _ _ => KOther
  end.

(** The nodes of a tree in the order [ast.Inspect] enters them: a node
    before its children, children from left to right. *)
Fixpoint walk (n : Node) : list Node :=
  n :: match n with
       | BasicLit _ _ _ => []
       | Ident _ => []
       | BinaryExpr _ X _ _ Y => walk X ++ walk Y
       | CallExpr _ f _ args _ => walk f ++ flat_map walk args
       | SelectorExpr _ X sel => walk X ++ [Ident sel]
       | ParenExpr _ _ X _ => walk X
       | OtherNode _ _ children => flat_map walk children
       end.

(** ** Resolved types ([go/types]) *)

(** Modelled from the spec: the resolved types of [go/types], which is not
    part of the repository.  The pass only asks a type for its printed
    form.  A type is identified by its canonical fully qualified name: a
    basic type prints its name, a defined type the path of its package and
    its name, and an alias stands for the type it names. *)
Inductive GoType :=
| Basic (name : string)
| Named (pkgpath name : string) (underlying : GoType)
| Alias (pkgpath name : string) (actual : GoType).

(** [Type.String()]. *)
Fixpoint TypeString (t : GoType) : string :=
  match t with
  | Basic name => name
  | Named pkgpath name _ =>
      if bool_decide (pkgpath = "") then name else pkgpath ++ "." ++ name
  | Alias _ _ actual => TypeString actual
  end.

(** [Type.Underlying()]. *)
Fixpoint Underlying (t : GoType) : GoType :=
  match t with
  | Basic name => Basic name
  | Named _ _ u => Underlying u
  | Alias _ _ actual => Underlying actual
  end.

(** The standard library's [time.Duration], declared as [type Duration int64]. *)
Definition Duration : GoType := Named "time" "Duration" (Basic "int64").

(** [types.TypeAndValue]; the checker records no entry without a type, so
    [Type_] is never nil. *)
Record TypeAndValue := mkTypeAndValue { Type_ : GoType }.

Record Object := mkObject { ObjName : string; ObjType : GoType }.

(** [types.Info]: a map entry is keyed by the node's address; a missing
    entry is a missing binding. *)
Record Info := mkInfo {
  Types : gmap positive TypeAndValue;
  Defs : gmap positive Object;
  Uses : gmap positive Object
}.

(** [Info.ObjectOf]. *)
Definition ObjectOf (info : Info) (i : IdentT) : option Object :=
  match Defs info !! IdentId i with
  | Some obj => Some obj
  | None => Uses info !! IdentId i
  end.

(** [Info.TypeOf]: the recorded type of the expression, for an identifier
    else the type of the object it denotes, else [nil] (here [None]). *)
Definition TypeOf (info : Info) (e : Node) : option GoType :=
  match Types info !! nodeId e with
  | Some tv => Some (Type_ tv)
  | None =>
      match e with
      | Ident i =>
          match ObjectOf info i with
          | Some obj => Some (ObjType obj)
          | None => None
          end
      | _ => None
      end
  end.

(** [types.Package]. *)
Inductive Package :=
| mkPackage (path : string) (imports : list Package).

Definition Path (p : Package) : string :=
  match p with mkPackage path _ => path end.

Definition Imports (p : Package) : list Package :=
  match p with mkPackage _ imports => imports end.

(** ** The pass and its effects ([go/analysis]) *)

Record Diagnostic := mkDiagnostic {
  DiagPos : Pos;
  Message : string
}.

(** [analysis.Pass]: the package, its files and the tables of the type
    checker. *)
Record Pass := mkPass {
  Pkg : Package;
  Files : list Node;
  TypesInfo : Info
}.

(** A classifier reads the pass and returns, or panics (a method called on
    a nil interface). *)
Inductive Result (A : Type) :=
| Ok (a : A)
| Panicked.
Arguments Ok {A} a.
Arguments Panicked {A}.

(** Go's short-circuit [&&] on classifiers: the right operand is evaluated
    only when the left one returned [true]. *)
Definition and_then (a b : Result bool) : Result bool :=
  match a with
  | Ok true => b
  | Ok false => Ok false
  | Panicked => Panicked
  end.

Infix "&&&" := and_then (at level 40, left associativity).

Global Instance Result_ret : MRet Result := fun _ a => Ok a.
Global Instance Result_bind : MBind Result := fun _ _ k r =>
  match r with
  | Ok a => k a
  | Panicked => Panicked
  end.

(** Go's [!] on a classifier. *)
Definition not_ (a : Result bool) : Result bool :=
  b ← a; mret (negb b).

(** What a run of the pass has done so far: the diagnostics handed to
    [pass.Reportf] and the lines written with [log.Printf], oldest first. *)
Record PassState := mkPassState {
  diagnostics : list Diagnostic;
  logged : list string
}.

Definition initial : PassState := mkPassState [] [].

(** A computation of the pass returns a value and a new state, or panics
    and leaves the state reached so far. *)
Inductive Outcome (A : Type) :=
| Done (a : A) (s : PassState)
| Panic (s : PassState).
Arguments Done {A} a s.
Arguments Panic {A} s.

Definition M (A : Type) : Type := PassState -> Outcome A.

Global Instance M_ret : MRet M := fun _ a s => Done a s.
Global Instance M_bind : MBind M := fun _ _ k m s =>
  match m s with
  | Done a s' => k a s'
  | Panic s' => Panic s'
  end.

Definition panic {A} : M A := fun s => Panic s.

Definition lift {A} (r : Result A) : M A :=
  match r with
  | Ok a => mret a
  | Panicked => panic
  end.

Definition final {A} (o : Outcome A) : PassState :=
  match o with
  | Done _ s => s
  | Panic s => s
  end.

(** [pass.Reportf]. *)
Definition Reportf (pos : Pos) (msg : string) : M unit :=
  fun s => Done tt (mkPassState (diagnostics s ++ [mkDiagnostic pos msg]) (logged s)).

(** [log.Printf]. *)
Definition log_Printf (line : string) : M unit :=
  fun s => Done tt (mkPassState (diagnostics s) (logged s ++ [line])).

(** Calls [f] on every element in turn; a panic ends the loop. *)
Fixpoint for_each {A} (f : A -> M unit) (l : list A) : M unit :=
  match l with
  | [] => mret tt
  | a :: l' => f a;; for_each f l'
  end.

(** [inspector.New]: the inspector holds the nodes of all files in
    traversal order. *)
Definition inspector_New (files : list Node) : list Node :=
  flat_map walk files.

(** [Inspector.Preorder]: calls [f] on the nodes whose kind is listed, in
    traversal order. *)
Definition Preorder (events : list Node) (types : list NodeKind)
    (f : Node -> M unit) : M unit :=
  for_each f (filter (fun n => kindOf n ∈ types) events).

(** ** durationcheck.go *)

Definition hasImport (pkg : Package) (importPath : string) : bool :=
  existsb (fun imp => bool_decide (Path imp = importPath)) (Imports pkg).

(** [x] is an interface value, [None] when nil: [x.String()] then panics. *)
Definition isDuration (x : option GoType) : Result bool :=
  match x with
  | Some t => Ok (bool_decide (TypeString t = "time.Duration"))
  | None => Panicked
  end.

Fixpoint isAcceptableCastArg (pass : Pass) (n : Node) : Result bool :=
  match n with
  | BasicLit _ _ _ => Ok true
  | BinaryExpr _ X _ _ Y =>
      isAcceptableCastArg pass X &&& isAcceptableCastArg pass Y
  | _ => not_ (isDuration (TypeOf (TypesInfo pass) n))
  end.

(** [isAcceptableCast] on the fields [Fun] and [Args] of the call. *)
Definition isAcceptableCast (pass : Pass) (Fun : Node) (Args : list Node)
    : Result bool :=
  match Args with
  | [arg] =>
      ok ← isAcceptableCastArg pass arg;
      if negb ok then mret false
      else
        match Fun with
        | SelectorExpr _ (Ident pkg) sel =>
            if negb (bool_decide (Name pkg = "time")) then mret false
            else mret (bool_decide (Name sel = "Duration"))
        | _ => mret false
        end
  | _ => mret false
  end.

Definition isUnacceptableExpr (pass : Pass) (expr : Node) : Result bool :=
  match expr with
  | BasicLit _ _ _ => Ok false
  | CallExpr _ f _ args _ => not_ (isAcceptableCast pass f args)
  | _ => Ok true
  end.

Inductive FormatResult :=
| Formatted (src : string)
| FormatError (err : string).

Section Durationcheck.

(** [format.Node], the pretty-printer of [go/format]. *)
Variable format_Node : Node -> FormatResult.

Definition formatNode (node : Node) : M string :=
  match format_Node node with
  | FormatError err =>
      log_Printf ("Error formatting expression: " ++ err);; mret ""
  | Formatted src => mret src
  end.

(** The function [check(pass)] returns; a node that is not a binary
    expression fails the type assertion. *)
Definition check (pass : Pass) (node : Node) : M unit :=
  match node with
  | BinaryExpr _ X _ Op Y =>
      if negb (bool_decide (Op = MUL)) then mret tt
      else
        match Types (TypesInfo pass) !! nodeId X,
              Types (TypesInfo pass) !! nodeId Y with
        | Some x, Some y =>
            d ← lift (isDuration (Some (Type_ x))
                      &&& isDuration (Some (Type_ y)));
            if d : bool then
              u ← lift (isUnacceptableExpr pass X
                        &&& isUnacceptableExpr pass Y);
              if u : bool then
                src ← formatNode node;
                Reportf (NodePos node)
                        ("Multiplication of durations: `" ++ src ++ "`")
              else mret tt
            else mret tt
        | _, _ => mret tt
        end
  | _ => panic
  end.

(** The part of [run] after the import gate: the scan of all files. *)
Definition scan (pass : Pass) : M unit :=
  Preorder (inspector_New (Files pass)) [KBinaryExpr] (check pass).

Definition run (pass : Pass) : M unit :=
  if negb (hasImport (Pkg pass) "time") then mret tt
  else scan pass.

End Durationcheck.

(** ** Reading aids for the properties *)

(** The resolved type, if there is one, is the duration type. *)
Definition resolvesToDuration (x : option GoType) : bool :=
  match x with
  | Some t => bool_decide (TypeString t = "time.Duration")
  | None => false
  end.

(** The function the specification gives for the cast-argument classifier,
    in its words: a literal is safe, a binary operation is safe when both
    operands are, and any other expression is safe when its resolved type
    is not the Duration type. *)
Fixpoint castArgSafe_spec (pass : Pass) (n : Node) : bool :=
  match n with
  | BasicLit _ _ _ => true
  | BinaryExpr _ X _ _ Y => castArgSafe_spec pass X && castArgSafe_spec pass Y
  | _ => negb (resolvesToDuration (TypeOf (TypesInfo pass) n))
  end.

(** The call target is the qualified reference [time.Duration]. *)
Definition namesTimeDuration (f : Node) : Prop :=
  ∃ id pkg sel,
    f = SelectorExpr id (Ident pkg) sel
    ∧ Name pkg = "time" ∧ Name sel = "Duration".

(** Every expression the cast-argument classifier asks the type of has one:
    the leaves of the tree of binary operations that are not literals. *)
Fixpoint leavesBound (pass : Pass) (n : Node) : Prop :=
  match n with
  | BasicLit _ _ _ => True
  | BinaryExpr _ X _ _ Y => leavesBound pass X ∧ leavesBound pass Y
  | _ => is_Some (TypeOf (TypesInfo pass) n)
  end.

Fixpoint has_dot (s : string) : bool :=
  match s with
  | EmptyString => false
  | String c s' => bool_decide (c = "."%char) || has_dot s'
  end.

(** ** The classifiers *)

(** Unfolds the operations of both effect layers. *)
Ltac run_monad :=
  unfold not_, lift, panic, mret, mbind, Result_ret, Result_bind, M_ret, M_bind
    in *;
  simpl in *.

Lemma and_then_true (a b : Result bool) :
  a &&& b = Ok true ↔ a = Ok true ∧ b = Ok true.
Proof. destruct a as [[]|], b as [[]|]; simpl; intuition congruence. Qed.

Lemma and_then_false (a b : Result bool) :
  a &&& b = Ok false ↔ a = Ok false ∨ (a = Ok true ∧ b = Ok false).
Proof. destruct a as [[]|], b as [[]|]; simpl; intuition congruence. Qed.

Lemma and_then_panicked (a b : Result bool) :
  a &&& b = Panicked ↔ a = Panicked ∨ (a = Ok true ∧ b = Panicked).
Proof. destruct a as [[]|], b as [[]|]; simpl; intuition congruence. Qed.

Lemma not_true (a : Result bool) : not_ a = Ok true ↔ a = Ok false.
Proof. destruct a as [[]|]; run_monad; split; congruence. Qed.

Lemma not_false (a : Result bool) : not_ a = Ok false ↔ a = Ok true.
Proof. destruct a as [[]|]; run_monad; split; congruence. Qed.

Lemma not_panicked (a : Result bool) : not_ a = Panicked ↔ a = Panicked.
Proof. destruct a as [[]|]; run_monad; split; congruence. Qed.

Lemma isDuration_true (x : option GoType) :
  isDuration x = Ok true ↔ ∃ t, x = Some t ∧ TypeString t = "time.Duration".
Proof.
  destruct x as [t|]; simpl; split.
  - intros H. exists t. split; [done|]. injection H as H.
    by apply bool_decide_eq_true in H.
  - intros (t' & [= <-] & H). by rewrite bool_decide_eq_true_2.
  - discriminate.
  - by intros (t' & ? & ?).
Qed.

Lemma isDuration_false (x : option GoType) :
  isDuration x = Ok false ↔ ∃ t, x = Some t ∧ TypeString t ≠ "time.Duration".
Proof.
  destruct x as [t|]; simpl; split.
  - intros H. exists t. split; [done|]. injection H as H.
    by apply bool_decide_eq_false in H.
  - intros (t' & [= <-] & H). by rewrite bool_decide_eq_false_2.
  - discriminate.
  - by intros (t' & ? & ?).
Qed.

Lemma isDuration_panicked (x : option GoType) :
  isDuration x = Panicked ↔ x = None.
Proof. destruct x; simpl; split; congruence. Qed.

Lemma isDuration_resolves (x : option GoType) (b : bool) :
  isDuration x = Ok b → resolvesToDuration x = b.
Proof. destruct x; simpl; congruence. Qed.

Lemma not_isDuration_resolves (x : option GoType) (b : bool) :
  not_ (isDuration x) = Ok b → b = negb (resolvesToDuration x).
Proof. destruct x; run_monad; congruence. Qed.

(** Whenever the classifier returns, it returns what the specification's
    function gives. *)
Lemma isAcceptableCastArg_returns_spec (pass : Pass) (n : Node) (b : bool) :
  isAcceptableCastArg pass n = Ok b → b = castArgSafe_spec pass n.
Proof.
  revert b.
  induction n as [ | |id X IHX p op Y IHY| | | | ]; intros b; simpl;
    try apply not_isDuration_resolves.
  - congruence.
  - destruct (isAcceptableCastArg pass X) as [[]|]; simpl; intros H.
    + rewrite <- (IHX true eq_refl). simpl. by apply IHY.
    + rewrite <- (IHX false eq_refl). simpl. congruence.
    + discriminate.
Qed.

(** It returns whenever the tables bind every expression it asks about. *)
Lemma isAcceptableCastArg_total (pass : Pass) (n : Node) :
  leavesBound pass n →
  isAcceptableCastArg pass n = Ok (castArgSafe_spec pass n).
Proof.
  induction n as [ | |id X IHX p op Y IHY| | | | ]; simpl;
    try (intros [t ->]; reflexivity).
  - reflexivity.
  - intros [HX HY]. rewrite (IHX HX), (IHY HY).
    by destruct (castArgSafe_spec pass X).
Qed.

Lemma isAcceptableCast_true (pass : Pass) (f : Node) (args : list Node) :
  isAcceptableCast pass f args = Ok true
  ↔ ∃ arg, args = [arg]
           ∧ isAcceptableCastArg pass arg = Ok true
           ∧ namesTimeDuration f.
Proof.
  unfold isAcceptableCast, namesTimeDuration. split.
  - destruct args as [|arg [|? ?]]; try discriminate.
    destruct (isAcceptableCastArg pass arg) as [[]|] eqn:Harg; run_monad;
      try discriminate.
    destruct f as [ | | | |id X sel| | ]; try discriminate.
    destruct X as [ |pkg| | | | | ]; try discriminate.
    case_bool_decide as Hp; simpl; [|discriminate].
    intros H. injection H as H. apply bool_decide_eq_true in H.
    exists arg. split_and!; [done..|]. by exists id, pkg, sel.
  - intros (arg & -> & Harg & id & pkg & sel & -> & Hp & Hs).
    rewrite Harg. run_monad. rewrite !bool_decide_eq_true_2 by done. done.
Qed.

Lemma isAcceptableCast_false (pass : Pass) (f : Node) (args : list Node) :
  isAcceptableCast pass f args = Ok false
  ↔ (∀ arg, args ≠ [arg])
    ∨ (∃ arg, args = [arg]
              ∧ (isAcceptableCastArg pass arg = Ok false
                 ∨ (isAcceptableCastArg pass arg = Ok true
                    ∧ ¬ namesTimeDuration f))).
Proof.
  split.
  - intros H. destruct args as [|arg [|? ?]]; [left; congruence| |left; congruence].
    right. exists arg. split; [done|].
    destruct (isAcceptableCastArg pass arg) as [[]|] eqn:Harg.
    + right. split; [done|]. intros Hf.
      assert (isAcceptableCast pass f [arg] = Ok true) as Ht
        by (apply isAcceptableCast_true; eauto).
      congruence.
    + by left.
    + unfold isAcceptableCast in H. rewrite Harg in H. discriminate.
  - intros [Hlen|(arg & -> & [Harg|[Harg Hf]])].
    + destruct args as [|arg [|? ?]]; try done. by destruct (Hlen arg).
    + unfold isAcceptableCast. by rewrite Harg.
    + destruct (isAcceptableCast pass f [arg]) as [[]|] eqn:E; [|done|].
      * apply isAcceptableCast_true in E as (? & ? & ? & ?). done.
      * unfold isAcceptableCast in E. rewrite Harg in E. run_monad.
        destruct f as [ | | | |? [ | | | | | | ] ?| | ]; try discriminate.
        by case_bool_decide.
Qed.

Lemma isAcceptableCast_panicked (pass : Pass) (f : Node) (args : list Node) :
  isAcceptableCast pass f args = Panicked
  ↔ ∃ arg, args = [arg] ∧ isAcceptableCastArg pass arg = Panicked.
Proof.
  split.
  - intros H. destruct args as [|arg [|? ?]]; try discriminate.
    exists arg. split; [done|].
    destruct (isAcceptableCastArg pass arg) as [[]|] eqn:Harg; [| |done].
    + assert (isAcceptableCast pass f [arg] ≠ Panicked); [|done].
      unfold isAcceptableCast. rewrite Harg. run_monad.
      destruct f as [ | | | |? [ | | | | | | ] ?| | ]; try discriminate.
      by case_bool_decide.
    + unfold isAcceptableCast in H. rewrite Harg in H. discriminate.
  - intros (arg & -> & Harg). unfold isAcceptableCast. by rewrite Harg.
Qed.

(** ** The duration type is recognised by name *)

Lemma append_nil (s : string) : ("" ++ s)%string = s.
Proof. reflexivity. Qed.

Lemma append_cons (c : ascii) (p s : string) :
  (String c p ++ s)%string = String c (p ++ s).
Proof. reflexivity. Qed.

Lemma has_dot_app (p n : string) :
  has_dot (p ++ String "."%char n) = true.
Proof.
  induction p as [|c p IH]; [done|].
  rewrite append_cons. simpl. rewrite IH. by rewrite orb_true_r.
Qed.

(** A qualified name splits in one way only at its last dot. *)
Lemma qualified_name_inj (p p' n n' : string) :
  has_dot n = false → has_dot n' = false →
  (p ++ "." ++ n)%string = (p' ++ "." ++ n')%string → p = p' ∧ n = n'.
Proof.
  intros Hn Hn'. revert p'.
  induction p as [|c p IH]; intros [|c' p'];
    rewrite ?append_cons, ?append_nil; intros H.
  - by injection H as ->.
  - injection H as <- ->. by rewrite has_dot_app in Hn.
  - injection H as -> <-. by rewrite has_dot_app in Hn'.
  - injection H as -> H. rewrite <- (append_nil n), <- (append_nil n') in H.
    rewrite <- !append_cons in H.
    destruct (IH _ H) as [-> ->]. done.
Qed.

Lemma Named_is_Duration (p n : string) (u : GoType) :
  has_dot n = false →
  TypeString (Named p n u) = "time.Duration" ↔ p = "time" ∧ n = "Duration".
Proof.
  intros Hn. split.
  - simpl. case_bool_decide as Hp.
    + intros ->. discriminate.
    + intros H. by apply (qualified_name_inj p "time" n "Duration").
  - by intros [-> ->].
Qed.

(** C7.  The duration type is recognised by the equality of the printed,
    fully qualified name of the resolved type with ["time.Duration"] and by
    nothing else: two types that print alike are treated alike, an alias of
    a duration type is a duration type, and a defined type with another name
    is not, whatever its underlying type ([int64] included). *)
Theorem isDuration_by_canonical_name :
  (∀ t, isDuration (Some t) = Ok true ↔ TypeString t = "time.Duration")
  ∧ (∀ t1 t2, TypeString t1 = TypeString t2 →
              isDuration (Some t1) = isDuration (Some t2))
  ∧ (∀ p n t, isDuration (Some t) = Ok true →
              isDuration (Some (Alias p n t)) = Ok true)
  ∧ (∀ p n u, has_dot n = false → (p, n) ≠ ("time", "Duration") →
              isDuration (Some (Named p n u)) = Ok false).
Proof.
  split_and!.
  - intros t. rewrite isDuration_true. split.
    + by intros (t' & [= <-] & H).
    + intros H. by exists t.
  - intros t1 t2 H. simpl. by rewrite H.
  - intros p n t H. exact H.
  - intros p n u Hn Hne. apply isDuration_false. eexists. split; [done|].
    intros H. apply Named_is_Duration in H as [-> ->]; done.
Qed.

(** ** The operand classifier *)

(** The conversion-call classifier returns true exactly on a call with one
    argument that the cast-argument classifier accepts and with the target
    [time.Duration]; and when the cast-argument classifier returns, a call
    that misses one of the three requirements is an unacceptable operand. *)
Theorem conversion_call_classified
    (pass : Pass) (id : NodeId) (f : Node) (lp rp : Pos) (args : list Node) :
  let legitimate :=
    ∃ arg, args = [arg] ∧ isAcceptableCastArg pass arg = Ok true
           ∧ namesTimeDuration f in
  (isAcceptableCast pass f args = Ok true ↔ legitimate)
  ∧ ((∀ arg, args = [arg] → isAcceptableCastArg pass arg ≠ Panicked) →
     ¬ legitimate →
     isUnacceptableExpr pass (CallExpr id f lp args rp) = Ok true).
Proof.
  intros legitimate. split; [apply isAcceptableCast_true|].
  intros Hret Hnot. simpl. apply not_true.
  destruct (isAcceptableCast pass f args) as [[]|] eqn:E; [|done|].
  - by apply isAcceptableCast_true in E.
  - apply isAcceptableCast_panicked in E as (arg & -> & E).
    by destruct (Hret arg eq_refl).
Qed.

(** On an argument whose leaves other than literals all have a type, the
    cast-argument classifier returns the value of the specification's
    function. *)
Theorem cast_argument_classifier_refines_spec (pass : Pass) (n : Node) :
  leavesBound pass n →
  isAcceptableCastArg pass n = Ok (castArgSafe_spec pass n).
Proof. apply isAcceptableCastArg_total. Qed.

(** ** One multiplication *)

(** The resolved type bound to an expression in [Types] is the duration
    type. *)
Definition boundToDuration (pass : Pass) (e : Node) : bool :=
  resolvesToDuration (Type_ <$> Types (TypesInfo pass) !! nodeId e).

(** A binary expression with the operator [*] whose two operands are both
    bound to the duration type. *)
Definition isDurationMul (pass : Pass) (n : Node) : bool :=
  match n with
  | BinaryExpr _ X _ Op Y =>
      bool_decide (Op = MUL) && boundToDuration pass X
      && boundToDuration pass Y
  | _ => false
  end.

(** What [check] decides on a node: to report it, to pass over it, or a
    panic. *)
Definition verdict (pass : Pass) (n : Node) : Result bool :=
  match n with
  | BinaryExpr _ X _ _ Y =>
      if isDurationMul pass n
      then isUnacceptableExpr pass X &&& isUnacceptableExpr pass Y
      else Ok false
  | _ => Panicked
  end.

Definition flagged (pass : Pass) (n : Node) : bool :=
  match verdict pass n with
  | Ok true => true
  | _ => false
  end.

(** The tables bind what the classifiers ask about below an operand, and
    below both operands of a binary expression. *)
Definition operandBound (pass : Pass) (e : Node) : Prop :=
  match e with
  | CallExpr _ _ _ [arg] _ => leavesBound pass arg
  | _ => True
  end.

Definition operandsBound (pass : Pass) (n : Node) : Prop :=
  match n with
  | BinaryExpr _ X _ _ Y => operandBound pass X ∧ operandBound pass Y
  | _ => True
  end.

Lemma isUnacceptableExpr_total (pass : Pass) (e : Node) :
  operandBound pass e → isUnacceptableExpr pass e ≠ Panicked.
Proof.
  destruct e as [ | | |id f lp args rp| | | ]; simpl; try done.
  intros Hb. rewrite not_panicked, isAcceptableCast_panicked.
  intros (arg & -> & Harg).
  by rewrite (isAcceptableCastArg_total _ _ Hb) in Harg.
Qed.

Lemma verdict_total (pass : Pass) (n : Node) :
  kindOf n = KBinaryExpr → operandsBound pass n → verdict pass n ≠ Panicked.
Proof.
  destruct n as [ | |id X p op Y| | | | ]; try done. intros _ [HX HY].
  unfold verdict. destruct (isDurationMul _ _); [|done].
  rewrite and_then_panicked. intros [H|[_ H]]; revert H;
    by apply isUnacceptableExpr_total.
Qed.

Lemma flagged_verdict (pass : Pass) (n : Node) :
  flagged pass n = true ↔ verdict pass n = Ok true.
Proof. unfold flagged. destruct (verdict pass n) as [[]|]; split; congruence. Qed.

Lemma flagged_spec (pass : Pass) (n : Node) :
  flagged pass n = true
  ↔ ∃ id X p Y,
      n = BinaryExpr id X p MUL Y
      ∧ boundToDuration pass X = true ∧ boundToDuration pass Y = true
      ∧ isUnacceptableExpr pass X = Ok true
      ∧ isUnacceptableExpr pass Y = Ok true.
Proof.
  rewrite flagged_verdict. split.
  - destruct n as [ | |id X p op Y| | | | ]; try discriminate.
    unfold verdict. destruct (isDurationMul _ _) eqn:E; [|discriminate].
    simpl in E. apply andb_true_iff in E as [E HY].
    apply andb_true_iff in E as [Hop HX]. apply bool_decide_eq_true in Hop.
    subst op. rewrite and_then_true. intros [? ?].
    exists id, X, p, Y. done.
  - intros (id & X & p & Y & -> & HX & HY & HuX & HuY).
    unfold verdict. simpl. by rewrite HX, HY, HuX, HuY.
Qed.

Lemma flagged_binary (pass : Pass) (n : Node) :
  flagged pass n = true → kindOf n = KBinaryExpr.
Proof. by intros (?&?&?&?&->&_)%flagged_spec. Qed.

Section Properties.

Variable format_Node : Node → FormatResult.

(** The text [formatNode] returns and the line it logs. *)
Definition rendered (n : Node) : string :=
  match format_Node n with
  | Formatted src => src
  | FormatError _ => ""
  end.

Definition logOf (n : Node) : list string :=
  match format_Node n with
  | Formatted _ => []
  | FormatError err => [("Error formatting expression: " ++ err)%string]
  end.

(** The diagnostic [check] reports for a node. *)
Definition diagnosticOf (n : Node) : Diagnostic :=
  mkDiagnostic (NodePos n) ("Multiplication of durations: `" ++ rendered n ++ "`").

Definition reported (s : PassState) (l : list Node) : PassState :=
  mkPassState (diagnostics s ++ map diagnosticOf l)
              (logged s ++ flat_map logOf l).

Lemma reported_nil (s : PassState) : reported s [] = s.
Proof. destruct s. unfold reported. simpl. by rewrite !app_nil_r. Qed.

Lemma reported_cons (s : PassState) (n : Node) (l : list Node) :
  reported (reported s [n]) l = reported s (n :: l).
Proof.
  unfold reported. simpl. rewrite !app_nil_r.
  by rewrite <- !app_assoc.
Qed.

Lemma formatNode_run (n : Node) (s : PassState) :
  formatNode format_Node n s
  = Done (rendered n) (mkPassState (diagnostics s) (logged s ++ logOf n)).
Proof.
  unfold formatNode, rendered, logOf. destruct (format_Node n); run_monad.
  - destruct s. simpl. by rewrite app_nil_r.
  - reflexivity.
Qed.

(** [check] does what [verdict] says. *)
Lemma check_verdict (pass : Pass) (n : Node) (s : PassState) :
  check format_Node pass n s
  = match verdict pass n with
    | Ok true => Done tt (reported s [n])
    | Ok false => Done tt s
    | Panicked => Panic s
    end.
Proof.
  destruct n as [ | |id X p op Y| | | | ]; try reflexivity.
  unfold verdict, isDurationMul, boundToDuration, check.
  case_bool_decide as Hop; simpl; [|reflexivity].
  destruct (Types (TypesInfo pass) !! nodeId X) as [x|]; simpl; [|reflexivity].
  destruct (Types (TypesInfo pass) !! nodeId Y) as [y|]; simpl;
    [|by rewrite andb_false_r].
  destruct (bool_decide (TypeString (Type_ x) = _)),
           (bool_decide (TypeString (Type_ y) = _)); simpl; try reflexivity.
  destruct (isUnacceptableExpr pass X &&& isUnacceptableExpr pass Y)
    as [[]|]; run_monad; try reflexivity.
  rewrite formatNode_run. unfold Reportf, reported. simpl.
  by rewrite !app_nil_r.
Qed.

(** ** The scan *)

Lemma for_each_cons {A} (f : A → M unit) (a : A) (l : list A) (s : PassState) :
  for_each f (a :: l) s
  = match f a s with
    | Done _ s' => for_each f l s'
    | Panic s' => Panic s'
    end.
Proof. reflexivity. Qed.

(** Without a panic, the loop reports the flagged nodes, in order. *)
Lemma for_each_check_done (pass : Pass) (l : list Node) (s : PassState) :
  Forall (λ n, verdict pass n ≠ Panicked) l →
  for_each (check format_Node pass) l s
  = Done tt (reported s (filter (λ n, flagged pass n = true) l)).
Proof.
  intros Hl. revert s. induction Hl as [|n l Hn Hl IH]; intros s.
  - by rewrite reported_nil.
  - rewrite for_each_cons, check_verdict.
    destruct (verdict pass n) as [[]|] eqn:E; [| |done].
    + rewrite filter_cons_True by by apply flagged_verdict.
      by rewrite IH, reported_cons.
    + rewrite filter_cons_False; [apply IH|].
      rewrite flagged_verdict. congruence.
Qed.

(** With a panic, it has reported the flagged nodes met before it. *)
Lemma for_each_check_final (pass : Pass) (l : list Node) (s : PassState) :
  ∃ l1 l2, l = l1 ++ l2
    ∧ final (for_each (check format_Node pass) l s)
      = reported s (filter (λ n, flagged pass n = true) l1).
Proof.
  revert s. induction l as [|n l IH]; intros s.
  - exists [], []. split; [done|]. by rewrite reported_nil.
  - rewrite for_each_cons, check_verdict.
    destruct (verdict pass n) as [[]|] eqn:E.
    + destruct (IH (reported s [n])) as (l1 & l2 & -> & ->).
      exists (n :: l1), l2. split; [done|].
      rewrite filter_cons_True by by apply flagged_verdict.
      by rewrite reported_cons.
    + destruct (IH s) as (l1 & l2 & -> & ->).
      exists (n :: l1), l2. split; [done|].
      rewrite filter_cons_False; [done|].
      rewrite flagged_verdict. congruence.
    + exists [], (n :: l). split; [done|]. by rewrite reported_nil.
Qed.

Lemma filter_flagged_binary (pass : Pass) (l : list Node) :
  filter (λ n, flagged pass n = true) (filter (λ n, kindOf n ∈ [KBinaryExpr]) l)
  = filter (λ n, flagged pass n = true) l.
Proof.
  induction l as [|n l IH]; [done|].
  destruct (decide (kindOf n ∈ [KBinaryExpr])) as [Hk|Hk].
  - rewrite (filter_cons_True (λ n, kindOf n ∈ _)) by done.
    destruct (decide (flagged pass n = true)).
    + rewrite !filter_cons_True by done. by rewrite IH.
    + rewrite !filter_cons_False by done. done.
  - rewrite (filter_cons_False (λ n, kindOf n ∈ _)) by done.
    rewrite filter_cons_False; [done|].
    intros Hf%flagged_binary. apply Hk. rewrite Hf. set_solver.
Qed.

Lemma scan_done (pass : Pass) (s : PassState) :
  Forall (operandsBound pass) (inspector_New (Files pass)) →
  scan format_Node pass s
  = Done tt (reported s (filter (λ n, flagged pass n = true)
                                (inspector_New (Files pass)))).
Proof.
  intros Hb. unfold scan, Preorder.
  rewrite for_each_check_done, filter_flagged_binary; [done|].
  apply Forall_forall. intros n [Hk Hn]%list_elem_of_filter.
  apply verdict_total.
  - apply list_elem_of_singleton in Hk. done.
  - rewrite Forall_forall in Hb. by apply Hb.
Qed.

Lemma scan_final (pass : Pass) (s : PassState) :
  ∃ l, l ⊆ inspector_New (Files pass)
    ∧ final (scan format_Node pass s)
      = reported s (filter (λ n, flagged pass n = true) l).
Proof.
  unfold scan, Preorder.
  destruct (for_each_check_final pass
              (filter (λ n, kindOf n ∈ [KBinaryExpr])
                      (inspector_New (Files pass))) s)
    as (l1 & l2 & Hl & ->).
  exists l1. split; [|done].
  intros n Hn. assert (n ∈ l1 ++ l2) as Hn' by set_solver.
  rewrite <- Hl in Hn'. by apply list_elem_of_filter in Hn' as [_ ?].
Qed.

Lemma hasImport_spec (pkg : Package) (importPath : string) :
  hasImport pkg importPath = true ↔ importPath ∈ map Path (Imports pkg).
Proof.
  unfold hasImport. induction (Imports pkg) as [|imp l IH]; simpl.
  - split; [discriminate|]. by intros ?%elem_of_nil.
  - rewrite orb_true_iff, IH, elem_of_cons, bool_decide_eq_true.
    split; intros [H|H]; auto.
Qed.

(** A multiplication with an operand that has no entry in [Types] is passed
    over: [check] returns and reports nothing. *)
Theorem check_skips_unbound_operand
    (pass : Pass) (id : NodeId) (X Y : Node) (p : Pos) (op : Token)
    (s : PassState) :
  Types (TypesInfo pass) !! nodeId X = None
  ∨ Types (TypesInfo pass) !! nodeId Y = None →
  check format_Node pass (BinaryExpr id X p op Y) s = Done tt s.
Proof.
  intros H. rewrite check_verdict. unfold verdict, isDurationMul, boundToDuration.
  destruct H as [-> | ->]; simpl; by rewrite ?andb_false_r.
Qed.

(** C1.  For a multiplication whose two operands are both bound to the
    duration type, [check] reports a diagnostic exactly when both operands
    classify as unacceptable; when one of them is acceptable, no diagnostic
    is reported for the expression. *)
Theorem check_reports_iff_both_unacceptable
    (pass : Pass) (id : NodeId) (X Y : Node) (p : Pos) (s : PassState) :
  boundToDuration pass X = true →
  boundToDuration pass Y = true →
  let n := BinaryExpr id X p MUL Y in
  (diagnostics (final (check format_Node pass n s))
   = diagnostics s ++ [diagnosticOf n]
   ↔ isUnacceptableExpr pass X = Ok true
     ∧ isUnacceptableExpr pass Y = Ok true)
  ∧ (isUnacceptableExpr pass X = Ok false
     ∨ isUnacceptableExpr pass Y = Ok false →
     diagnostics (final (check format_Node pass n s)) = diagnostics s).
Proof.
  intros HX HY n. rewrite check_verdict. unfold n, verdict. simpl.
  rewrite HX, HY. simpl.
  assert (∀ d : Diagnostic, diagnostics s ≠ diagnostics s ++ [d]) as Hne.
  { intros d H. apply (f_equal length) in H. rewrite length_app in H.
    simpl in H. lia. }
  split.
  - rewrite <- and_then_true.
    destruct (isUnacceptableExpr pass X &&& isUnacceptableExpr pass Y)
      as [[]|]; simpl.
    + done.
    + split; [|done]. intros H. by destruct (Hne _ H).
    + split; [|done]. intros H. by destruct (Hne _ H).
  - intros H.
    destruct (isUnacceptableExpr pass X) as [[]|],
             (isUnacceptableExpr pass Y) as [[]|]; simpl; try done;
      destruct H; discriminate.
Qed.

(** C8.  A diagnostic of a run carries the position of the flagged
    multiplication and the message ["Multiplication of durations: `"],
    the text rendered for that expression and a closing backquote; where
    rendering fails, [check] still reports the diagnostic, with the empty
    text, logs the error and returns. *)
Theorem diagnostic_position_and_message (pass : Pass) :
  (∀ d, d ∈ diagnostics (final (run format_Node pass initial)) →
     ∃ n, n ∈ inspector_New (Files pass)
       ∧ flagged pass n = true
       ∧ DiagPos d = NodePos n
       ∧ Message d
         = ("Multiplication of durations: `"
            ++ match format_Node n with
               | Formatted src => src
               | FormatError _ => ""
               end ++ "`")%string)
  ∧ (∀ n err s, flagged pass n = true → format_Node n = FormatError err →
       check format_Node pass n s
       = Done tt (mkPassState
           (diagnostics s
            ++ [mkDiagnostic (NodePos n) "Multiplication of durations: ``"])
           (logged s ++ [("Error formatting expression: " ++ err)%string]))).
Proof.
  split.
  - intros d. unfold run. destruct (hasImport _ _); simpl.
    + destruct (scan_final pass initial) as (l & Hl & ->). simpl.
      intros (n & -> & Hn)%list_elem_of_fmap.
      apply list_elem_of_filter in Hn as [Hf Hn].
      exists n. split_and!; [by apply Hl|done..].
    + by intros ?%elem_of_nil.
  - intros n err s Hf Herr. rewrite check_verdict.
    apply flagged_verdict in Hf. rewrite Hf.
    unfold reported, diagnosticOf, rendered, logOf. simpl.
    by rewrite Herr, !app_nil_r.
Qed.

(** The number of flagged nodes does not depend on the order of the files
    or of the children of a node. *)
Lemma flagged_count_files (pass : Pass) (files files' : list Node) :
  files ≡ₚ files' →
  length (filter (λ n, flagged pass n = true) (inspector_New files))
  = length (filter (λ n, flagged pass n = true) (inspector_New files')).
Proof. unfold inspector_New. by intros ->. Qed.

Lemma flagged_count_siblings (pass : Pass) (i : NodeId) (p : Pos)
    (children children' : list Node) :
  children ≡ₚ children' →
  length (filter (λ n, flagged pass n = true) (walk (OtherNode i p children)))
  = length (filter (λ n, flagged pass n = true)
                   (walk (OtherNode i p children'))).
Proof.
  intros H. simpl. rewrite !filter_cons_False by done. by rewrite H.
Qed.

(** C3, as amended.  For a package that imports [time], [run] is the full
    scan; for a package that does not, [run] returns at once and reports
    nothing, whatever the full scan would report. *)
Theorem run_import_gate (pass : Pass) (s : PassState) :
  ("time" ∈ map Path (Imports (Pkg pass)) →
   run format_Node pass s = scan format_Node pass s)
  ∧ ("time" ∉ map Path (Imports (Pkg pass)) →
     run format_Node pass s = Done tt s).
Proof.
  unfold run. split; intros H.
  - apply hasImport_spec in H. by rewrite H.
  - destruct (hasImport (Pkg pass) "time") eqn:E; [|done].
    by apply hasImport_spec in E.
Qed.

(** C10.  In [a * b * c] and in [(a * b) * c], with [a], [b], [c]
    identifiers and every operand bound to the duration type, the left
    operand of the outer multiplication falls into the default case of the
    operand classifier, so the run reports the outer multiplication and
    then the inner one: two diagnostics for the one fragment. *)
Theorem nested_product_reported_twice
    (pass : Pass) (a b c : IdentT) (i1 i2 : NodeId) (p1 p2 : Pos)
    (L : Node) (s : PassState) :
  let inner := BinaryExpr i1 (Ident a) p1 MUL (Ident b) in
  let outer := BinaryExpr i2 L p2 MUL (Ident c) in
  (L = inner ∨ ∃ i lp rp, L = ParenExpr i lp inner rp) →
  boundToDuration pass (Ident a) = true →
  boundToDuration pass (Ident b) = true →
  boundToDuration pass (Ident c) = true →
  boundToDuration pass L = true →
  hasImport (Pkg pass) "time" = true →
  Files pass = [outer] →
  isUnacceptableExpr pass L = Ok true
  ∧ run format_Node pass s
    = Done tt (reported s [outer; inner]).
Proof.
  intros inner outer HL Ha Hb Hc HLb Himp Hfiles.
  assert (isUnacceptableExpr pass L = Ok true) as HLu
    by (destruct HL as [->|(?&?&?&->)]; done).
  split; [done|].
  assert (flagged pass outer = true) as Hfo.
  { apply flagged_spec. by exists i2, L, p2, (Ident c). }
  assert (flagged pass inner = true) as Hfi.
  { apply flagged_spec. by exists i1, (Ident a), p1, (Ident b). }
  unfold run. rewrite Himp. simpl. rewrite scan_done.
  - rewrite Hfiles. f_equal. f_equal. unfold inspector_New. simpl.
    rewrite app_nil_r. rewrite filter_cons_True by done.
    destruct HL as [->|(i & lp & rp & ->)]; simpl.
    + rewrite filter_cons_True by done. done.
    + rewrite filter_cons_False by done.
      rewrite filter_cons_True by done. done.
  - rewrite Hfiles. unfold inspector_New. simpl. rewrite app_nil_r.
    destruct HL as [->|(i & lp & rp & ->)]; simpl;
      repeat (apply Forall_cons; split; [by simpl|]); by apply Forall_nil.
Qed.

End Properties.

(** ** Worked units *)

(** A pretty-printer for the worked units: it renders the expressions and
    fails on every other node. *)
Definition tokenString (t : Token) : string :=
  match t with
  | ADD => "+" | SUB => "-" | MUL => "*" | QUO => "/" | REM => "%"
  | AND => "&" | OR => "|" | XOR => "^" | SHL => "<<" | SHR => ">>"
  | AND_NOT => "&^" | LAND => "&&" | LOR => "||"
  | EQL => "==" | LSS => "<" | GTR => ">" | NEQ => "!=" | LEQ => "<="
  | GEQ => ">="
  end.

Fixpoint render (n : Node) : option string :=
  match n with
  | BasicLit _ _ v => Some v
  | Ident i => Some (Name i)
  | BinaryExpr _ X _ op Y =>
      x ← render X; y ← render Y;
      Some (x +:+ " " +:+ tokenString op +:+ " " +:+ y)
  | CallExpr _ f _ args _ =>
      f' ← render f;
      args' ← (fix go (l : list Node) : option (list string) :=
                 match l with
                 | [] => Some []
                 | e :: l' => e' ← render e; r ← go l'; Some (e' :: r)
                 end) args;
      Some (f' +:+ "(" +:+ String.concat ", " args' +:+ ")")
  | SelectorExpr _ X sel => x ← render X; Some (x +:+ "." +:+ Name sel)
  | ParenExpr _ _ X _ => x ← render X; Some ("(" +:+ x +:+ ")")
  | OtherNode _ _ _ => None
  end.

Definition gofmt (n : Node) : FormatResult :=
  match render n with
  | Some src => Formatted src
  | None => FormatError "unsupported node"
  end.

Definition timePkg : Package := mkPackage "time" [].

(** Tables that bind the listed nodes to the listed types, and tables that
    bind the listed nodes to [time.Duration]. *)
Definition tables (l : list (positive * GoType)) : Info :=
  mkInfo (list_to_map (prod_map id mkTypeAndValue <$> l)) ∅ ∅.

Definition durations (ids : list positive) : Info :=
  tables ((λ i, (i, Duration)) <$> ids).

(** A file around one expression. *)
Definition fileOf (e : Node) : Node := OtherNode 100 1 [e].

(** [a * b], two duration variables. *)
Definition product : Node :=
  BinaryExpr 3 (Ident (mkIdent 1 10 "a")) 12 MUL (Ident (mkIdent 2 14 "b")).

Definition pass_product : Pass :=
  mkPass (mkPackage "main" [timePkg]) [fileOf product]
         (durations [1; 2; 3]%positive).

(** [a * b * c], three duration variables. *)
Definition nested : Node :=
  BinaryExpr 5 product 16 MUL (Ident (mkIdent 4 18 "c")).

Definition pass_nested : Pass :=
  mkPass (mkPackage "main" [timePkg]) [nested]
         (durations [1; 2; 3; 4; 5]%positive).

(** [conf.Timeout * conf.Retry] in a package that imports [example.com/conf]
    only; both variables are declared there with type [time.Duration]. *)
Definition confPkg : Package := mkPackage "example.com/conf" [timePkg].

Definition settings : Node :=
  BinaryExpr 7
    (SelectorExpr 3 (Ident (mkIdent 1 10 "conf")) (mkIdent 2 15 "Timeout"))
    23 MUL
    (SelectorExpr 6 (Ident (mkIdent 4 25 "conf")) (mkIdent 5 30 "Retry")).

Definition pass_settings : Pass :=
  mkPass (mkPackage "main" [confPkg]) [fileOf settings]
         (durations [2; 3; 5; 6; 7]%positive).

(** [d * time.Duration(x)] where the tables have no entry for [x]. *)
Definition unbound : Node := Ident (mkIdent 6 28 "x").

Definition conversion : Node :=
  CallExpr 7
    (SelectorExpr 5 (Ident (mkIdent 3 14 "time")) (mkIdent 4 19 "Duration"))
    27 [unbound] 29.

Definition wrapped : Node :=
  BinaryExpr 8 (Ident (mkIdent 1 10 "d")) 12 MUL conversion.

Definition pass_wrapped : Pass :=
  mkPass (mkPackage "main" [timePkg]) [fileOf wrapped]
         (durations [1; 4; 5; 7; 8]%positive).

(** [scale(x)], a call of a function of the package, [x] as above. *)
Definition scaleCall : Node :=
  CallExpr 7 (Ident (mkIdent 5 14 "scale")) 19 [unbound] 21.

(** [v[0] * d], durations; the printer fails on the index expression. *)
Definition indexed : Node :=
  BinaryExpr 4 (OtherNode 2 10 [Ident (mkIdent 1 10 "v")]) 15 MUL
             (Ident (mkIdent 3 17 "d")).

Definition pass_indexed : Pass :=
  mkPass (mkPackage "main" [timePkg]) [fileOf indexed]
         (durations [2; 3; 4]%positive).

(** Four multiplications of durations in one file: [a * b],
    [5 * d], [d * time.Duration(k)] with [k] an [int], and
    [d * time.Duration(e)] with [e] a duration. *)
Definition timeDuration (i j k : positive) (p : Pos) : Node :=
  SelectorExpr k (Ident (mkIdent i p "time")) (mkIdent j (p + 5) "Duration").

Definition fromInt : Node :=
  BinaryExpr 13 (Ident (mkIdent 7 30 "d")) 32 MUL
    (CallExpr 12 (timeDuration 8 9 10 34) 47 [Ident (mkIdent 11 48 "k")] 49).

Definition fromDuration : Node :=
  BinaryExpr 20 (Ident (mkIdent 14 60 "d")) 62 MUL
    (CallExpr 19 (timeDuration 15 16 17 64) 77 [Ident (mkIdent 18 78 "e")] 79).

Definition mixed : Node :=
  OtherNode 100 1
    [product;
     BinaryExpr 6 (BasicLit 4 20 "5") 22 MUL (Ident (mkIdent 5 24 "d"));
     fromInt; fromDuration].

Definition pass_mixed : Pass :=
  mkPass (mkPackage "main" [timePkg]) [mixed]
    (tables (((λ i, (i, Duration))
                <$> [1; 2; 3; 4; 5; 6; 7; 12; 13; 14; 18; 19; 20]%positive)
             ++ [(11%positive, Basic "int")])).

(** ** The properties on the worked units *)

(** [a * b] is reported: both operands are identifiers. *)
Lemma check_reports_iff_both_unacceptable_witness :
  diagnostics (final (check gofmt pass_product product initial))
  = [mkDiagnostic 10 "Multiplication of durations: `a * b`"].
Proof.
  apply (proj2 (proj1 (check_reports_iff_both_unacceptable
                         gofmt pass_product 3
                         (Ident (mkIdent 1 10 "a")) (Ident (mkIdent 2 14 "b"))
                         12 initial eq_refl eq_refl))).
  split; reflexivity.
Defined.

(** A named duration of a configuration package, an alias of
    [time.Duration] and a defined type over [int64]. *)
Lemma isDuration_by_canonical_name_witness :
  isDuration (Some (Alias "main" "Timeout" Duration)) = Ok true
  ∧ Underlying (Named "main" "Millis" (Basic "int64")) = Underlying Duration
  ∧ isDuration (Some (Named "main" "Millis" (Basic "int64"))) = Ok false.
Proof.
  destruct isDuration_by_canonical_name as (Hname & _ & Halias & Hnamed).
  split_and!.
  - apply Halias, Hname. reflexivity.
  - reflexivity.
  - apply Hnamed; [reflexivity|discriminate].
Defined.

(** The diagnostic of [a * b], and the one of [v[0] * d], which the
    printer cannot render. *)
Lemma diagnostic_position_and_message_witness :
  (∃ n, n ∈ inspector_New (Files pass_product)
     ∧ flagged pass_product n = true
     ∧ 10%Z = NodePos n
     ∧ "Multiplication of durations: `a * b`"
       = ("Multiplication of durations: `"
          ++ match gofmt n with
             | Formatted src => src
             | FormatError _ => ""
             end ++ "`")%string)
  ∧ check gofmt pass_indexed indexed initial
    = Done tt (mkPassState
        [mkDiagnostic 10 "Multiplication of durations: ``"]
        ["Error formatting expression: unsupported node"]).
Proof.
  split.
  - apply (proj1 (diagnostic_position_and_message gofmt pass_product)
             (mkDiagnostic 10 "Multiplication of durations: `a * b`")).
    vm_compute. apply list_elem_of_here.
  - apply (proj2 (diagnostic_position_and_message gofmt pass_indexed)
             indexed "unsupported node" initial); reflexivity.
Defined.

(** [pass_product] imports [time]; [pass_settings] does not. *)
Lemma run_import_gate_witness :
  run gofmt pass_product initial = scan gofmt pass_product initial
  ∧ run gofmt pass_settings initial = Done tt initial.
Proof.
  split.
  - apply (proj1 (run_import_gate gofmt pass_product initial)).
    apply list_elem_of_here.
  - apply (proj2 (run_import_gate gofmt pass_settings initial)).
    apply not_elem_of_cons. split; [discriminate|apply not_elem_of_nil].
Defined.

(** C3, as stated, fails on [conf.Timeout * conf.Retry]: the package does
    not import [time], the gated run reports nothing and the full scan
    reports the multiplication. *)
Lemma import_gate_drops_diagnostic :
  hasImport (Pkg pass_settings) "time" = false
  ∧ run gofmt pass_settings initial = Done tt initial
  ∧ scan gofmt pass_settings initial
    = Done tt (mkPassState
        [mkDiagnostic 10
           "Multiplication of durations: `conf.Timeout * conf.Retry`"]
        []).
Proof. split_and!; reflexivity. Qed.

(** [a * b * c] is reported twice, at the same position. *)
Lemma nested_product_reported_twice_witness :
  isUnacceptableExpr pass_nested product = Ok true
  ∧ run gofmt pass_nested initial
    = Done tt (mkPassState
        [mkDiagnostic 10 "Multiplication of durations: `a * b * c`";
         mkDiagnostic 10 "Multiplication of durations: `a * b`"]
        []).
Proof.
  apply (nested_product_reported_twice gofmt pass_nested
           (mkIdent 1 10 "a") (mkIdent 2 14 "b") (mkIdent 4 18 "c")
           3 5 12 16 product initial);
    try reflexivity.
  left. reflexivity.
Defined.

(** [10 * k] with [k] an [int] is a safe cast argument. *)
Lemma cast_argument_classifier_refines_spec_witness :
  isAcceptableCastArg pass_mixed
    (BinaryExpr 30 (BasicLit 31 50 "10") 53 MUL (Ident (mkIdent 11 55 "k")))
  = Ok true.
Proof.
  apply (cast_argument_classifier_refines_spec pass_mixed
           (BinaryExpr 30 (BasicLit 31 50 "10") 53 MUL
                       (Ident (mkIdent 11 55 "k")))).
  simpl. split; [exact I|]. eexists. reflexivity.
Defined.

(** [scale(k)] with [k] an [int] is an unacceptable operand: the target is
    not [time.Duration]. *)
Lemma conversion_call_classified_witness :
  isUnacceptableExpr pass_mixed
    (CallExpr 32 (Ident (mkIdent 33 40 "scale")) 45
              [Ident (mkIdent 11 46 "k")] 47)
  = Ok true.
Proof.
  apply (proj2 (conversion_call_classified pass_mixed 32
                  (Ident (mkIdent 33 40 "scale")) 45 47
                  [Ident (mkIdent 11 46 "k")])).
  - intros arg [= <-]. discriminate.
  - intros (arg & _ & _ & (? & ? & ? & ? & _)). discriminate.
Defined.

(** [x * x] with no type recorded for [x] is passed over. *)
Lemma check_skips_unbound_operand_witness :
  check gofmt pass_wrapped (BinaryExpr 9 unbound 30 MUL unbound) initial
  = Done tt initial.
Proof.
  apply (check_skips_unbound_operand gofmt pass_wrapped 9 unbound unbound
           30 MUL initial).
  left. reflexivity.
Defined.

(** ** Where an argument has no type *)

(** C2.  On [d * time.Duration(x)] with no type recorded for [x], both
    operands of the multiplication are bound, the classifier of the cast
    argument asks [TypeOf] for the type of [x], gets nil, and the run
    panics. *)
Theorem run_panics_on_unbound_cast_argument :
  boundToDuration pass_wrapped (Ident (mkIdent 1 10 "d")) = true
  ∧ boundToDuration pass_wrapped conversion = true
  ∧ TypeOf (TypesInfo pass_wrapped) unbound = None
  ∧ run gofmt pass_wrapped initial = Panic initial.
Proof. split_and!; reflexivity. Qed.

(** C4.  On [scale(x)], a call whose target is not [time.Duration], with
    no type recorded for [x], neither the conversion-call classifier nor
    the operand classifier returns. *)
Theorem isAcceptableCast_panics_on_unbound_argument :
  ¬ namesTimeDuration (Ident (mkIdent 5 14 "scale"))
  ∧ isAcceptableCast pass_wrapped (Ident (mkIdent 5 14 "scale")) [unbound]
    = Panicked
  ∧ isUnacceptableExpr pass_wrapped scaleCall = Panicked.
Proof.
  split_and!; [|reflexivity..].
  intros (? & ? & ? & ? & _). discriminate.
Qed.

(** C5.  On [x] with no type recorded, the function of the specification
    says safe and the classifier panics. *)
Theorem isAcceptableCastArg_panics_on_unbound_leaf :
  castArgSafe_spec pass_wrapped unbound = true
  ∧ isAcceptableCastArg pass_wrapped unbound = Panicked.
Proof. split; reflexivity. Qed.

(** ** The cast-argument classifier, leaf by leaf *)

(** The expressions the cast-argument classifier asks the type of: the
    leaves of the tree of binary operations that are not literals, from
    left to right. *)
Fixpoint castLeaves (n : Node) : list Node :=
  match n with
  | BasicLit _ _ _ => []
  | BinaryExpr _ X _ _ Y => castLeaves X ++ castLeaves Y
  | _ => [n]
  end.

(** The leaf has a resolved type and it is not the duration type. *)
Definition scalarTyped (pass : Pass) (leaf : Node) : Prop :=
  ∃ t, TypeOf (TypesInfo pass) leaf = Some t
       ∧ TypeString t ≠ "time.Duration".

(** The left-to-right conjunction of the leaves, stopping at the first leaf
    that is a duration or has no type. *)
Fixpoint classifyLeaves (pass : Pass) (l : list Node) : Result bool :=
  match l with
  | [] => Ok true
  | leaf :: l' =>
      not_ (isDuration (TypeOf (TypesInfo pass) leaf)) &&& classifyLeaves pass l'
  end.

Lemma and_then_assoc (a b c : Result bool) :
  (a &&& b) &&& c = a &&& (b &&& c).
Proof. by destruct a as [[]|]. Qed.

Lemma and_then_true_r (a : Result bool) : a &&& Ok true = a.
Proof. by destruct a as [[]|]. Qed.

Lemma classifyLeaves_app (pass : Pass) (l1 l2 : list Node) :
  classifyLeaves pass (l1 ++ l2)
  = classifyLeaves pass l1 &&& classifyLeaves pass l2.
Proof.
  induction l1 as [|x l1 IH]; [done|].
  simpl. by rewrite IH, and_then_assoc.
Qed.

Lemma isAcceptableCastArg_leaves (pass : Pass) (n : Node) :
  isAcceptableCastArg pass n = classifyLeaves pass (castLeaves n).
Proof.
  induction n as [ | |id X IHX p op Y IHY| | | | ]; simpl;
    rewrite ?and_then_true_r; try done.
  by rewrite IHX, IHY, classifyLeaves_app.
Qed.

Lemma scalarTyped_classified (pass : Pass) (leaf : Node) :
  not_ (isDuration (TypeOf (TypesInfo pass) leaf)) = Ok true
  ↔ scalarTyped pass leaf.
Proof. by rewrite not_true, isDuration_false. Qed.

Lemma classifyLeaves_true (pass : Pass) (l : list Node) :
  classifyLeaves pass l = Ok true ↔ Forall (scalarTyped pass) l.
Proof.
  induction l as [|x l IH]; simpl.
  - split; [by intros; apply Forall_nil|done].
  - by rewrite and_then_true, Forall_cons, IH, scalarTyped_classified.
Qed.

Lemma classifyLeaves_panicked (pass : Pass) (l : list Node) :
  classifyLeaves pass l = Panicked
  ↔ ∃ l1 x l2, l = l1 ++ x :: l2
               ∧ Forall (scalarTyped pass) l1
               ∧ TypeOf (TypesInfo pass) x = None.
Proof.
  induction l as [|x l IH]; simpl.
  - split; [done|]. intros (l1 & y & l2 & H & _). by destruct l1.
  - rewrite and_then_panicked, not_panicked, isDuration_panicked,
      scalarTyped_classified, IH.
    split.
    + intros [Hx|[Hx (l1 & y & l2 & -> & Hl1 & Hy)]].
      * exists [], x, l. split_and!; [done|by apply Forall_nil|done].
      * exists (x :: l1), y, l2. split_and!; [done|by apply Forall_cons|done].
    + intros (l1 & y & l2 & H & Hl1 & Hy). destruct l1 as [|z l1].
      * injection H as -> ->. by left.
      * injection H as -> ->. apply Forall_cons in Hl1 as [Hz Hl1].
        right. split; [done|]. by exists l1, y, l2.
Qed.

(** The cast-argument classifier accepts an argument exactly when every
    leaf of its tree of binary operations that is not a literal has a
    resolved type other than the duration type; the operators and the
    types of the binary operations themselves play no part. *)
Theorem cast_argument_safe_iff_leaves (pass : Pass) (n : Node) :
  isAcceptableCastArg pass n = Ok true
  ↔ Forall (scalarTyped pass) (castLeaves n).
Proof. by rewrite isAcceptableCastArg_leaves, classifyLeaves_true. Qed.

(** The cast-argument classifier panics exactly when, reading the leaves
    from left to right, it meets a leaf without a type before any leaf of
    duration type. *)
Theorem cast_argument_panics_iff (pass : Pass) (n : Node) :
  isAcceptableCastArg pass n = Panicked
  ↔ ∃ l1 x l2, castLeaves n = l1 ++ x :: l2
               ∧ Forall (scalarTyped pass) l1
               ∧ TypeOf (TypesInfo pass) x = None.
Proof. by rewrite isAcceptableCastArg_leaves, classifyLeaves_panicked. Qed.

(** Two arguments with the same leaves in the same order are classified
    alike, whatever their operators and grouping. *)
Theorem cast_argument_regrouping (pass : Pass) (n n' : Node) :
  castLeaves n = castLeaves n' →
  isAcceptableCastArg pass n = isAcceptableCastArg pass n'.
Proof. intros H. by rewrite !isAcceptableCastArg_leaves, H. Qed.

(** The operand classifier panics exactly on a call with one argument on
    which the cast-argument classifier panics; on every other operand it
    returns. *)
Theorem operand_classifier_panics_iff (pass : Pass) (e : Node) :
  isUnacceptableExpr pass e = Panicked
  ↔ ∃ id f lp arg rp,
      e = CallExpr id f lp [arg] rp
      ∧ isAcceptableCastArg pass arg = Panicked.
Proof.
  split.
  - destruct e as [ | | |id f lp args rp| | | ]; try discriminate.
    intros H. apply not_panicked, isAcceptableCast_panicked in H
      as (arg & -> & H).
    by exists id, f, lp, arg, rp.
  - intros (id & f & lp & arg & rp & -> & H).
    apply not_panicked, isAcceptableCast_panicked. by exists arg.
Qed.

(** [hasImport] is true exactly when a package of the import list has the
    path; the import lists of the imported packages are not read. *)
Theorem hasImport_direct_only (pkg : Package) (importPath : string) :
  (hasImport pkg importPath = true
   ↔ ∃ imp, imp ∈ Imports pkg ∧ Path imp = importPath)
  ∧ (∀ pkg', map Path (Imports pkg) = map Path (Imports pkg') →
             hasImport pkg importPath = hasImport pkg' importPath).
Proof.
  split.
  - rewrite hasImport_spec. change (map Path) with (fmap (M:=list) Path).
    rewrite list_elem_of_fmap. split.
    + intros (imp & -> & Himp). by exists imp.
    + intros (imp & Himp & <-). by exists imp.
  - intros pkg' H.
    destruct (hasImport pkg importPath) eqn:E1,
             (hasImport pkg' importPath) eqn:E2; try done.
    + apply hasImport_spec in E1. rewrite H in E1.
      apply (hasImport_spec pkg') in E1. congruence.
    + apply hasImport_spec in E2. rewrite <- H in E2.
      apply (hasImport_spec pkg) in E2. congruence.
Qed.

(** ** What [check] passes over, and when a run panics *)

(** The classifiers and [check] read the tables of the pass and nothing
    else of it. *)
Lemma isAcceptableCastArg_tables (p1 p2 : Pass) (n : Node) :
  TypesInfo p1 = TypesInfo p2 →
  isAcceptableCastArg p1 n = isAcceptableCastArg p2 n.
Proof.
  intros H. induction n as [ | |id X IHX p op Y IHY| | | | ]; simpl;
    rewrite ?H; try done.
  by rewrite IHX, IHY.
Qed.

Lemma isUnacceptableExpr_tables (p1 p2 : Pass) (e : Node) :
  TypesInfo p1 = TypesInfo p2 →
  isUnacceptableExpr p1 e = isUnacceptableExpr p2 e.
Proof.
  intros H. destruct e as [ | | |id f lp args rp| | | ]; try done.
  simpl. unfold isAcceptableCast. destruct args as [|arg [|? ?]]; try done.
  by rewrite (isAcceptableCastArg_tables p1 p2 arg H).
Qed.

Lemma verdict_tables (p1 p2 : Pass) (n : Node) :
  TypesInfo p1 = TypesInfo p2 → verdict p1 n = verdict p2 n.
Proof.
  intros H. destruct n as [ | |id X p op Y| | | | ]; try done.
  unfold verdict, isDurationMul, boundToDuration. rewrite H.
  by rewrite (isUnacceptableExpr_tables p1 p2 X H),
             (isUnacceptableExpr_tables p1 p2 Y H).
Qed.

Lemma verdict_panicked (pass : Pass) (id : NodeId) (X Y : Node) (p : Pos)
    (op : Token) :
  verdict pass (BinaryExpr id X p op Y) = Panicked
  ↔ op = MUL
    ∧ boundToDuration pass X = true ∧ boundToDuration pass Y = true
    ∧ (isUnacceptableExpr pass X = Panicked
       ∨ (isUnacceptableExpr pass X = Ok true
          ∧ isUnacceptableExpr pass Y = Panicked)).
Proof.
  unfold verdict, isDurationMul.
  destruct (bool_decide_reflect (op = MUL)) as [->|Hop]; simpl.
  - destruct (boundToDuration pass X), (boundToDuration pass Y); simpl;
      rewrite ?and_then_panicked; intuition congruence.
  - intuition congruence.
Qed.

Lemma filter_none {A} (P : A → Prop) `{∀ x, Decision (P x)} (l : list A) :
  Forall (λ x, ¬ P x) l → filter P l = [].
Proof.
  induction 1 as [|x l Hx Hl IH]; [done|].
  by rewrite filter_cons_False.
Qed.

Section Behaviour.

Variable format_Node : Node → FormatResult.

Lemma check_tables (p1 p2 : Pass) (n : Node) (s : PassState) :
  TypesInfo p1 = TypesInfo p2 →
  check format_Node p1 n s = check format_Node p2 n s.
Proof. intros H. by rewrite !check_verdict, (verdict_tables p1 p2 n H). Qed.

Lemma for_each_check_tables (p1 p2 : Pass) (l : list Node) (s : PassState) :
  TypesInfo p1 = TypesInfo p2 →
  for_each (check format_Node p1) l s = for_each (check format_Node p2) l s.
Proof.
  intros H. revert s. induction l as [|n l IH]; intros s; [done|].
  rewrite !for_each_cons, (check_tables p1 p2 n s H).
  destruct (check format_Node p2 n s); [apply IH|done].
Qed.

Lemma for_each_app {A} (f : A → M unit) (l1 l2 : list A) (s : PassState) :
  for_each f (l1 ++ l2) s
  = match for_each f l1 s with
    | Done _ s' => for_each f l2 s'
    | Panic s' => Panic s'
    end.
Proof.
  revert s. induction l1 as [|a l1 IH]; intros s; [done|].
  simpl app. rewrite !for_each_cons. destruct (f a s); [apply IH|done].
Qed.

Lemma for_each_check_panics (pass : Pass) (l : list Node) (s : PassState) :
  (∃ s', for_each (check format_Node pass) l s = Panic s')
  ↔ ∃ n, n ∈ l ∧ verdict pass n = Panicked.
Proof.
  revert s. induction l as [|n l IH]; intros s.
  - split; [by intros [? ?]|]. by intros (? & ?%elem_of_nil & _).
  - rewrite for_each_cons, check_verdict.
    destruct (verdict pass n) as [[]|] eqn:E.
    + rewrite IH. split; intros (m & Hm & Hv).
      * exists m. split; [by apply list_elem_of_further|done].
      * apply elem_of_cons in Hm as [->|Hm]; [congruence|by exists m].
    + rewrite IH. split; intros (m & Hm & Hv).
      * exists m. split; [by apply list_elem_of_further|done].
      * apply elem_of_cons in Hm as [->|Hm]; [congruence|by exists m].
    + split; [|by exists s]. intros _. exists n.
      split; [apply list_elem_of_here|done].
Qed.

Lemma logOf_length (l : list Node) :
  (length (flat_map (logOf format_Node) l) ≤ length l)%nat.
Proof.
  induction l as [|n l IH]; simpl; [done|].
  rewrite length_app. unfold logOf at 1. destruct (format_Node n); simpl; lia.
Qed.

(** A binary expression with another operator than [*] is passed over:
    [check] returns, reports nothing and does not look at the operands. *)
Theorem check_ignores_other_operators
    (pass : Pass) (id : NodeId) (X Y : Node) (p : Pos) (op : Token)
    (s : PassState) :
  op ≠ MUL →
  check format_Node pass (BinaryExpr id X p op Y) s = Done tt s.
Proof.
  intros Hop. rewrite check_verdict. unfold verdict, isDurationMul.
  by rewrite bool_decide_eq_false_2.
Qed.

(** A multiplication with an operand bound to another type than the
    duration type is passed over: [check] returns and reports nothing,
    without classifying the operands. *)
Theorem check_requires_both_durations
    (pass : Pass) (id : NodeId) (X Y : Node) (p : Pos) (op : Token)
    (x y : TypeAndValue) (s : PassState) :
  Types (TypesInfo pass) !! nodeId X = Some x →
  Types (TypesInfo pass) !! nodeId Y = Some y →
  TypeString (Type_ x) ≠ "time.Duration"
  ∨ TypeString (Type_ y) ≠ "time.Duration" →
  check format_Node pass (BinaryExpr id X p op Y) s = Done tt s.
Proof.
  intros HX HY H. rewrite check_verdict.
  unfold verdict, isDurationMul, boundToDuration. rewrite HX, HY. simpl.
  destruct H as [H|H]; rewrite (bool_decide_eq_false_2 _ H);
    by rewrite ?andb_false_r.
Qed.

(** When the left operand is acceptable, [check] returns and reports
    nothing whatever the right operand is: the right operand is not
    classified, so a right operand on which the classifier would panic does
    no harm. *)
Theorem acceptable_left_operand_shields_right
    (pass : Pass) (id : NodeId) (X Y : Node) (p : Pos) (op : Token)
    (s : PassState) :
  isUnacceptableExpr pass X = Ok false →
  check format_Node pass (BinaryExpr id X p op Y) s = Done tt s.
Proof.
  intros HX. rewrite check_verdict. unfold verdict. rewrite HX.
  by destruct (isDurationMul _ _).
Qed.

(** When the operand classifier returns on both operands, [check] reports
    [X op Y] exactly when it reports [Y op X]. *)
Theorem operand_order_irrelevant
    (pass : Pass) (i j : NodeId) (X Y : Node) (p q : Pos) (op : Token)
    (s : PassState) :
  isUnacceptableExpr pass X ≠ Panicked →
  isUnacceptableExpr pass Y ≠ Panicked →
  diagnostics (final (check format_Node pass (BinaryExpr i X p op Y) s))
  = diagnostics s
  ↔ diagnostics (final (check format_Node pass (BinaryExpr j Y q op X) s))
    = diagnostics s.
Proof.
  intros HX HY. rewrite !check_verdict. unfold verdict, isDurationMul.
  rewrite (andb_comm (_ && boundToDuration pass Y)), andb_assoc.
  rewrite (andb_comm (boundToDuration pass X) (bool_decide _)).
  destruct (bool_decide (op = MUL) && boundToDuration pass X
            && boundToDuration pass Y); [|done].
  destruct (isUnacceptableExpr pass X) as [[]|],
           (isUnacceptableExpr pass Y) as [[]|]; simpl; try done.
  assert (∀ d : Diagnostic, diagnostics s ++ [d] ≠ diagnostics s) as Hne.
  { intros d H. apply (f_equal length) in H. rewrite length_app in H.
    simpl in H. lia. }
  split; intros H; by apply Hne in H.
Qed.

(** The scan panics exactly when the tree holds a multiplication of two
    operands bound to the duration type on which the operand classifier
    panics: on the left operand, or on the right one after it has found the
    left one unacceptable.  The type assertion of [check] never fails. *)
Theorem scan_panics_iff (pass : Pass) (s : PassState) :
  (∃ s', scan format_Node pass s = Panic s')
  ↔ ∃ id X p Y,
      BinaryExpr id X p MUL Y ∈ inspector_New (Files pass)
      ∧ boundToDuration pass X = true ∧ boundToDuration pass Y = true
      ∧ (isUnacceptableExpr pass X = Panicked
         ∨ (isUnacceptableExpr pass X = Ok true
            ∧ isUnacceptableExpr pass Y = Panicked)).
Proof.
  unfold scan, Preorder. rewrite for_each_check_panics. split.
  - intros (n & [Hk Hn]%list_elem_of_filter & Hv).
    destruct n as [ | |id X p op Y| | | | ];
      try by apply list_elem_of_singleton in Hk.
    apply verdict_panicked in Hv as (-> & HX & HY & H).
    by exists id, X, p, Y.
  - intros (id & X & p & Y & Hn & HX & HY & H).
    exists (BinaryExpr id X p MUL Y). split.
    + apply list_elem_of_filter. split; [|done].
      simpl. apply list_elem_of_here.
    + by apply verdict_panicked.
Qed.

(** A run only appends: the diagnostics and the log lines it started with
    stay in front, also when it panics, and it writes at most one log line
    for each diagnostic it adds. *)
Theorem run_only_appends (pass : Pass) (s : PassState) :
  ∃ ds ls,
    diagnostics (final (run format_Node pass s)) = diagnostics s ++ ds
    ∧ logged (final (run format_Node pass s)) = logged s ++ ls
    ∧ (length ls ≤ length ds)%nat.
Proof.
  unfold run. destruct (hasImport _ _); simpl.
  - destruct (scan_final format_Node pass s) as (l & _ & ->).
    eexists _, _. split_and!; [done..|].
    rewrite length_map. apply logOf_length.
  - exists [], []. by rewrite !app_nil_r.
Qed.

(** When the printer renders every flagged multiplication of the unit, a
    run writes no log line. *)
Theorem run_logs_only_format_errors (pass : Pass) (s : PassState) :
  (∀ n, n ∈ inspector_New (Files pass) → flagged pass n = true →
        ∃ src, format_Node n = Formatted src) →
  logged (final (run format_Node pass s)) = logged s.
Proof.
  intros Hfmt. unfold run. destruct (hasImport _ _); simpl; [|done].
  destruct (scan_final format_Node pass s) as (l & Hl & ->). simpl.
  assert (flat_map (logOf format_Node)
            (filter (λ n, flagged pass n = true) l) = []) as ->;
    [|by rewrite app_nil_r].
  induction l as [|n l IH]; [done|].
  assert (l ⊆ inspector_New (Files pass)) as Hl'
    by (intros m Hm; apply Hl; by apply list_elem_of_further).
  destruct (decide (flagged pass n = true)) as [Hf|Hf].
  - rewrite filter_cons_True by done. simpl. rewrite (IH Hl').
    destruct (Hfmt n) as [src Hsrc]; [apply Hl, list_elem_of_here|done|].
    unfold logOf. by rewrite Hsrc.
  - rewrite filter_cons_False by done. by apply IH.
Qed.

(** Scanning the files [fs1 ++ fs2] is scanning [fs1] and then, unless
    that panicked, [fs2], with the same tables. *)
Theorem scan_app (pkg : Package) (info : Info) (fs1 fs2 : list Node)
    (s : PassState) :
  scan format_Node (mkPass pkg (fs1 ++ fs2) info) s
  = match scan format_Node (mkPass pkg fs1 info) s with
    | Done _ s' => scan format_Node (mkPass pkg fs2 info) s'
    | Panic s' => Panic s'
    end.
Proof.
  unfold scan, Preorder, inspector_New. simpl.
  rewrite flat_map_app, filter_app, for_each_app.
  rewrite (for_each_check_tables _ (mkPass pkg fs1 info)) by done.
  destruct (for_each _ _ s) as [[] s'|s']; [|done].
  by apply for_each_check_tables.
Qed.

(** On a unit without any multiplication the scan returns and changes
    nothing, whatever its tables hold; so it does on a unit without
    files. *)
Theorem scan_without_multiplication (pass : Pass) (s : PassState) :
  (∀ id X p Y, BinaryExpr id X p MUL Y ∉ inspector_New (Files pass)) →
  scan format_Node pass s = Done tt s.
Proof.
  intros Hno. unfold scan, Preorder.
  assert (Forall (λ n, verdict pass n = Ok false)
            (filter (λ n, kindOf n ∈ [KBinaryExpr])
                    (inspector_New (Files pass)))) as Hv.
  { apply Forall_forall. intros n [Hk Hn]%list_elem_of_filter.
    destruct n as [ | |id X p op Y| | | | ];
      try by apply list_elem_of_singleton in Hk.
    unfold verdict, isDurationMul.
    destruct (bool_decide_reflect (op = MUL)) as [->|Hop]; [|done].
    by destruct (Hno id X p Y). }
  rewrite for_each_check_done.
  - rewrite filter_none; [by rewrite reported_nil|].
    eapply Forall_impl; [exact Hv|]. intros n Hn. simpl.
    rewrite flagged_verdict. congruence.
  - eapply Forall_impl; [exact Hv|]. intros n Hn. simpl in *. congruence.
Qed.

Lemma filter_length_mono {A} (P Q : A → Prop)
    `{∀ x, Decision (P x)} `{∀ x, Decision (Q x)} (l : list A) :
  (∀ x, P x → Q x) → (length (filter P l) ≤ length (filter Q l))%nat.
Proof.
  intros HPQ. induction l as [|x l IH]; [done|].
  destruct (decide (P x)) as [HP|HP].
  - rewrite (filter_cons_True P), (filter_cons_True Q) by auto. simpl. lia.
  - rewrite (filter_cons_False P) by done.
    destruct (decide (Q x)).
    + rewrite (filter_cons_True Q) by done. simpl. lia.
    + by rewrite (filter_cons_False Q).
Qed.

Lemma flagged_isDurationMul (pass : Pass) (n : Node) :
  flagged pass n = true → isDurationMul pass n = true.
Proof.
  intros (id & X & p & Y & -> & HX & HY & _)%flagged_spec.
  simpl. by rewrite HX, HY.
Qed.

(** A run adds at most one diagnostic for each multiplication of two
    operands bound to the duration type that the unit holds, also when it
    panics. *)
Theorem run_reports_at_most_duration_products (pass : Pass) (s : PassState) :
  (length (diagnostics (final (run format_Node pass s)))
   ≤ length (diagnostics s)
     + length (filter (λ n, isDurationMul pass n = true)
                      (inspector_New (Files pass))))%nat.
Proof.
  unfold run. destruct (hasImport _ _); simpl; [|lia].
  unfold scan, Preorder.
  destruct (for_each_check_final format_Node pass
              (filter (λ n, kindOf n ∈ [KBinaryExpr])
                      (inspector_New (Files pass))) s)
    as (l1 & l2 & Hl & ->).
  simpl. rewrite length_app, length_map.
  apply Nat.add_le_mono_l.
  trans (length (filter (λ n, flagged pass n = true) (l1 ++ l2))).
  { rewrite filter_app, length_app. lia. }
  rewrite <- Hl, (filter_flagged_binary format_Node).
  apply filter_length_mono. intros n. apply flagged_isDurationMul.
Qed.

End Behaviour.

(** ** These properties on worked units *)

(** [a + b], two duration variables. *)
Definition sum : Node :=
  BinaryExpr 3 (Ident (mkIdent 1 10 "a")) 12 ADD (Ident (mkIdent 2 14 "b")).

Definition pass_sum : Pass :=
  mkPass (mkPackage "main" [timePkg]) [fileOf sum]
         (durations [1; 2; 3]%positive).

(** [k * scale(x)], a product of two [int]s; no type is recorded for [x]. *)
Definition intProduct : Node :=
  BinaryExpr 8 (Ident (mkIdent 1 10 "k")) 12 MUL scaleCall.

Definition pass_ints : Pass :=
  mkPass (mkPackage "main" [timePkg]) [fileOf intProduct]
         (tables [(1%positive, Basic "int"); (7%positive, Basic "int")]).

(** [(1 + k) * 2] and [1 - k / 2] have the one leaf [k]. *)
Lemma cast_argument_regrouping_witness :
  let k := Ident (mkIdent 11 48 "k") in
  isAcceptableCastArg pass_mixed
    (BinaryExpr 40 (BinaryExpr 41 (BasicLit 42 40 "1") 42 ADD k) 50 MUL
                (BasicLit 43 52 "2"))
  = isAcceptableCastArg pass_mixed
      (BinaryExpr 44 (BasicLit 45 40 "1") 42 SUB
                  (BinaryExpr 46 k 50 QUO (BasicLit 47 52 "2"))).
Proof.
  apply (cast_argument_regrouping pass_mixed
           (BinaryExpr 40 (BinaryExpr 41 (BasicLit 42 40 "1") 42 ADD
                                      (Ident (mkIdent 11 48 "k"))) 50 MUL
                       (BasicLit 43 52 "2"))
           (BinaryExpr 44 (BasicLit 45 40 "1") 42 SUB
                       (BinaryExpr 46 (Ident (mkIdent 11 48 "k")) 50 QUO
                                   (BasicLit 47 52 "2")))).
  reflexivity.
Defined.

(** A package that imports [example.com/conf] only does not import
    [time], whether [example.com/conf] imports [time] or nothing. *)
Lemma hasImport_direct_only_witness :
  hasImport (mkPackage "main" [confPkg]) "time"
  = hasImport (mkPackage "main" [mkPackage "example.com/conf" []]) "time".
Proof.
  apply (proj2 (hasImport_direct_only (mkPackage "main" [confPkg]) "time")
           (mkPackage "main" [mkPackage "example.com/conf" []])).
  reflexivity.
Defined.

(** [a / b] on two durations is passed over. *)
Lemma check_ignores_other_operators_witness :
  check gofmt pass_product
    (BinaryExpr 3 (Ident (mkIdent 1 10 "a")) 12 QUO (Ident (mkIdent 2 14 "b")))
    initial
  = Done tt initial.
Proof.
  apply (check_ignores_other_operators gofmt pass_product 3
           (Ident (mkIdent 1 10 "a")) (Ident (mkIdent 2 14 "b")) 12 QUO
           initial).
  discriminate.
Defined.

(** [k * scale(x)] on [int]s is passed over, though no type is recorded
    for [x]. *)
Lemma check_requires_both_durations_witness :
  check gofmt pass_ints intProduct initial = Done tt initial.
Proof.
  apply (check_requires_both_durations gofmt pass_ints 8
           (Ident (mkIdent 1 10 "k")) scaleCall 12 MUL
           (mkTypeAndValue (Basic "int")) (mkTypeAndValue (Basic "int"))
           initial).
  - reflexivity.
  - reflexivity.
  - left. discriminate.
Defined.

(** [5 * time.Duration(x)] is passed over, though no type is recorded for
    [x]. *)
Lemma acceptable_left_operand_shields_right_witness :
  check gofmt pass_wrapped (BinaryExpr 8 (BasicLit 1 10 "5") 12 MUL conversion)
        initial
  = Done tt initial.
Proof.
  apply (acceptable_left_operand_shields_right gofmt pass_wrapped 8
           (BasicLit 1 10 "5") conversion 12 MUL initial).
  reflexivity.
Defined.

(** [a * b] is reported, and so is [b * a]. *)
Lemma operand_order_irrelevant_witness :
  diagnostics (final (check gofmt pass_product product initial)) = []
  ↔ diagnostics
      (final (check gofmt pass_product
                (BinaryExpr 3 (Ident (mkIdent 2 14 "b")) 12 MUL
                            (Ident (mkIdent 1 10 "a")))
                initial)) = [].
Proof.
  apply (operand_order_irrelevant gofmt pass_product 3 3
           (Ident (mkIdent 1 10 "a")) (Ident (mkIdent 2 14 "b")) 12 12 MUL
           initial); discriminate.
Defined.

(** The printer renders both flagged multiplications of [mixed]. *)
Lemma run_logs_only_format_errors_witness :
  logged (final (run gofmt pass_mixed initial)) = [].
Proof.
  apply (run_logs_only_format_errors gofmt pass_mixed initial).
  intros n Hn Hf. apply list_elem_of_In in Hn. simpl in Hn.
  repeat (destruct Hn as [<-|Hn];
          [first [discriminate Hf | eexists; reflexivity]|]).
  destruct Hn.
Defined.

(** The unit of [a + b] has no multiplication. *)
Lemma scan_without_multiplication_witness :
  scan gofmt pass_sum initial = Done tt initial.
Proof.
  apply (scan_without_multiplication gofmt pass_sum initial).
  intros id X p Y Hn. apply list_elem_of_In in Hn. simpl in Hn.
  repeat (destruct Hn as [Hn|Hn]; [discriminate Hn|]).
  destruct Hn.
Defined.

(** ** The multiplications the specification counts *)

(** The operand classification of the specification, in its words: a call
    is a legitimate conversion when it has exactly one argument, the
    argument is safe and the target is [time.Duration]; an operand is
    unacceptable unless it is a literal or a legitimate conversion. *)
Definition targetIsTimeDuration (f : Node) : bool :=
  match f with
  | SelectorExpr _ (Ident pkg) sel =>
      bool_decide (Name pkg = "time") && bool_decide (Name sel = "Duration")
  | _ => false
  end.

Definition legitimateConversion_spec (pass : Pass) (f : Node)
    (args : list Node) : bool :=
  match args with
  | [arg] => castArgSafe_spec pass arg && targetIsTimeDuration f
  | _ => false
  end.

Definition unacceptable_spec (pass : Pass) (e : Node) : bool :=
  match e with
  | BasicLit _ _ _ => false
  | CallExpr _ f _ args _ => negb (legitimateConversion_spec pass f args)
  | _ => true
  end.

(** A duration-times-duration multiplication, as the specification reads
    it: a multiplication whose two operands have the duration type and are
    both unacceptable. *)
Definition durationProduct_spec (pass : Pass) (n : Node) : bool :=
  match n with
  | BinaryExpr _ X _ _ Y =>
      isDurationMul pass n && unacceptable_spec pass X
      && unacceptable_spec pass Y
  | _ => false
  end.

Lemma isAcceptableCast_returns_spec (pass : Pass) (f : Node)
    (args : list Node) (b : bool) :
  isAcceptableCast pass f args = Ok b →
  b = legitimateConversion_spec pass f args.
Proof.
  unfold isAcceptableCast, legitimateConversion_spec.
  destruct args as [|arg [|? ?]]; try (intros [= <-]; reflexivity).
  destruct (isAcceptableCastArg pass arg) as [a|] eqn:Harg; [|discriminate].
  apply isAcceptableCastArg_returns_spec in Harg as <-.
  destruct a; run_monad; [|congruence].
  destruct f as [ | | | |? [ | | | | | | ] ?| | ]; simpl; try congruence.
  destruct (bool_decide (Name i = "time")); simpl; congruence.
Qed.

Lemma isUnacceptableExpr_returns_spec (pass : Pass) (e : Node) (b : bool) :
  isUnacceptableExpr pass e = Ok b → b = unacceptable_spec pass e.
Proof.
  destruct e as [ | | |id f lp args rp| | | ]; simpl; try congruence.
  destruct (isAcceptableCast pass f args) as [c|] eqn:E; [|discriminate].
  apply isAcceptableCast_returns_spec in E as <-. run_monad. congruence.
Qed.

(** Where [check] decides, it decides as the specification counts. *)
Lemma verdict_returns_spec (pass : Pass) (n : Node) (b : bool) :
  verdict pass n = Ok b → b = durationProduct_spec pass n.
Proof.
  destruct n as [ | |id X p op Y| | | | ]; try discriminate.
  unfold verdict, durationProduct_spec.
  destruct (isDurationMul pass _); simpl; [|congruence].
  destruct (isUnacceptableExpr pass X) as [[]|] eqn:EX; simpl;
    [| |discriminate];
    apply isUnacceptableExpr_returns_spec in EX as <-; simpl; [|congruence].
  apply isUnacceptableExpr_returns_spec.
Qed.

Lemma filter_ext_Forall {A} (P Q : A → Prop)
    `{∀ x, Decision (P x)} `{∀ x, Decision (Q x)} (l : list A) :
  Forall (λ x, P x ↔ Q x) l → filter P l = filter Q l.
Proof.
  induction 1 as [|x l Hx Hl IH]; [done|].
  destruct (decide (P x)) as [HP|HP].
  - rewrite (filter_cons_True P), (filter_cons_True Q) by tauto. by rewrite IH.
  - rewrite (filter_cons_False P), (filter_cons_False Q) by tauto. done.
Qed.

Section Counting.

Variable format_Node : Node → FormatResult.

(** A scan that does not panic returns and reports exactly the
    duration-times-duration multiplications of the tree, as the
    specification reads them, one diagnostic each and in traversal order:
    K diagnostics when the tree holds K of them. *)
Theorem scan_counts_duration_products (pass : Pass) (s : PassState) :
  (∀ s', scan format_Node pass s ≠ Panic s') →
  let products := filter (λ n, durationProduct_spec pass n = true)
                         (inspector_New (Files pass)) in
  ∃ s', scan format_Node pass s = Done tt s'
    ∧ diagnostics s' = diagnostics s ++ map (diagnosticOf format_Node) products
    ∧ length (diagnostics s') = length (diagnostics s) + length products.
Proof.
  intros Hnp products.
  assert (∀ n, n ∈ inspector_New (Files pass) → kindOf n = KBinaryExpr →
               verdict pass n ≠ Panicked) as Hv.
  { intros n Hn Hk Hp.
    destruct (proj2 (for_each_check_panics format_Node pass
                (filter (λ n, kindOf n ∈ [KBinaryExpr])
                        (inspector_New (Files pass))) s)) as [s' Hs'].
    - exists n. split; [|done]. apply list_elem_of_filter.
      split; [|done]. rewrite Hk. apply list_elem_of_here.
    - by apply (Hnp s'). }
  exists (reported format_Node s products). split_and!.
  - unfold scan, Preorder. rewrite for_each_check_done.
    + rewrite (filter_flagged_binary format_Node). unfold products.
      do 2 f_equal. apply filter_ext_Forall, Forall_forall. intros n Hn.
      rewrite flagged_verdict.
      destruct n as [ | |id X p op Y| | | | ]; try done.
      destruct (verdict pass (BinaryExpr id X p op Y)) as [b|] eqn:E.
      * apply verdict_returns_spec in E as <-. split; congruence.
      * by destruct (Hv _ Hn eq_refl).
    + apply Forall_forall. intros n [Hk Hn]%list_elem_of_filter.
      apply Hv; [done|]. by apply list_elem_of_singleton in Hk.
  - done.
  - simpl. by rewrite length_app, length_map.
Qed.

End Counting.

(** [d * deadlines.Sub(x)] and [d * scale(x)], durations; no type is
    recorded for [x]. *)
Definition subCall : Node :=
  CallExpr 7
    (SelectorExpr 5 (Ident (mkIdent 3 14 "deadlines")) (mkIdent 4 24 "Sub"))
    27 [unbound] 29.

Definition scaledByCall : Node :=
  BinaryExpr 8 (Ident (mkIdent 1 10 "d")) 12 MUL scaleCall.

Definition pass_scaledByCall : Pass :=
  mkPass (mkPackage "main" [timePkg]) [fileOf scaledByCall]
         (durations [1; 7; 8]%positive).

(** The scan of [mixed] does not panic: of its four multiplications of
    durations, the specification counts two, and two are reported. *)
Lemma scan_counts_duration_products_witness :
  ∃ s', scan gofmt pass_mixed initial = Done tt s'
    ∧ length (diagnostics s') = 2.
Proof.
  destruct (scan_counts_duration_products gofmt pass_mixed initial)
    as (s' & Hscan & _ & Hlen).
  - intros s' H. discriminate H.
  - exists s'. split; [exact Hscan|exact Hlen].
Defined.

(** C6.  On [deadlines.Sub(x)], a call that is not a conversion, with no
    type recorded for [x], the specification's split says unacceptable and
    the operand classifier panics; so does [check] on
    [d * deadlines.Sub(x)]. *)
Theorem isUnacceptableExpr_panics_on_non_conversion_call :
  kindOf subCall = KCallExpr
  ∧ unacceptable_spec pass_wrapped subCall = true
  ∧ isUnacceptableExpr pass_wrapped subCall = Panicked
  ∧ check gofmt pass_wrapped
      (BinaryExpr 8 (Ident (mkIdent 1 10 "d")) 12 MUL subCall) initial
    = Panic initial.
Proof. split_and!; reflexivity. Qed.

(** C9.  The tree of [d * scale(x)] holds one multiplication, of an
    identifier and a call that is not a conversion, both of duration type:
    the specification counts one duration-times-duration multiplication;
    with no type recorded for [x] the scan panics and has reported
    nothing. *)
Theorem scan_panics_on_counted_product :
  length (filter (λ n, durationProduct_spec pass_scaledByCall n = true)
                 (inspector_New (Files pass_scaledByCall))) = 1
  ∧ TypeOf (TypesInfo pass_scaledByCall) unbound = None
  ∧ scan gofmt pass_scaledByCall initial = Panic initial
  ∧ run gofmt pass_scaledByCall initial = Panic initial.
Proof. split_and!; reflexivity. Qed.
